(** * nextjs-r3f: the 3D demo page, its two scenes and the ClientOnly wrapper

    A shallow embedding of

    - [components/Scene.tsx]        (the [Box] component and the basic scene),
    - [components/AdvancedScene.tsx] (sphere, ground, environment, controls),
    - [app/3d/page.tsx]             (the page with its two panels),
    - [components/ClientOnly.tsx]   (as listed in [docs/nextjs-r3f-guide.md]).

    JavaScript numbers are IEEE 754 binary64 values, which is what Rocq's
    primitive [float] is, so [+=] on a rotation angle is [PrimFloat.add] and
    the literals [1.5], [-1.2], ... are the same doubles as in the source.

    A React element is a tree of tags, props and children.  A function
    component is a function from its props and its hook state to such a tree.
    An event handler created during a render is a closure over the values of
    that render; the only thing the handlers of this repository do is to call
    a [useState] setter with a value fixed at render time, so a handler is
    represented by the setter call it performs.

    A mounted box owns a three.js mesh through [meshRef].  The frame
    callback writes its x rotation; the render that follows a state change
    hands the attributes that changed to the mesh, so a click also rescales
    the mesh. *)

From Stdlib Require Import Bool PeanoNat List String PrimFloat.
Import ListNotations.
Open Scope string_scope.
Open Scope list_scope.

(** Decimal literals are rounded to the nearest double, as JavaScript does. *)
#[local] Set Warnings "-inexact-float".

(** ** React elements *)

Module JSX.

#[local] Set Warnings "-register-all".

(** What a handler of this code base does when it is called. *)
Inductive Handler : Type :=
| SetHover (v : bool)
| SetActive (v : bool).

Inductive PropValue : Type :=
| PNum (x : float)
| PStr (s : string)
| PBool (b : bool)
| PVec (xs : list float)
| PObj (fields : list (string * PropValue))
| PRef (name : string)
| PHandler (h : Handler)
| PNode (n : Node)
with Node : Type :=
| NNull
| NText (s : string)
| NElem (tag : string) (props : list (string * PropValue)) (children : list Node)
| NFragment (children : list Node).

Definition Props : Type := list (string * PropValue).

(** Later occurrences of a prop override earlier ones, as in JSX
    ([{...props}] followed by explicit attributes). *)
Fixpoint prop (name : string) (ps : Props) : option PropValue :=
  match ps with
  | [] => None
  | (k, v) :: rest =>
      match prop name rest with
      | Some w => Some w
      | None => if String.eqb k name then Some v else None
      end
  end.


Definition props_of (n : Node) : Props :=
  match n with
  | NElem _ ps _ => ps
  | _ => []
  end.

Definition children_of (n : Node) : list Node :=
  match n with
  | NElem _ _ cs => cs
  | NFragment cs => cs
  | _ => []
  end.

Definition has_tag (t : string) (n : Node) : bool :=
  match n with
  | NElem t' _ _ => String.eqb t' t
  | _ => false
  end.

(** All elements with tag [t] in the tree of children, in document order.
    Elements passed as prop values (a [fallback]) are not children. *)
Fixpoint elements (t : string) (n : Node) : list Node :=
  let fix go (cs : list Node) : list Node :=
    match cs with
    | [] => []
    | c :: rest => elements t c ++ go rest
    end in
  match n with
  | NNull | NText _ => []
  | NElem _ _ cs => (if has_tag t n then [n] else []) ++ go cs
  | NFragment cs => go cs
  end.

End JSX.

(** ** The part of a three.js mesh that the code touches *)

Module Three.

Record Vector3 : Type := mkVector3 { vx : float; vy : float; vz : float }.

Record Euler : Type := mkEuler { ex : float; ey : float; ez : float }.

Record Mesh : Type := mkMesh {
  position : Vector3;
  rotation : Euler;
  scale : Vector3
}.

Definition set_rotation_x (m : Mesh) (x : float) : Mesh :=
  {| position := position m;
     rotation := {| ex := x; ey := ey (rotation m); ez := ez (rotation m) |};
     scale := scale m |}.

(** [scale.setScalar(v)]: what a numeric [scale] attribute does to the
    mesh it is put on. *)
Definition set_scale_scalar (m : Mesh) (v : float) : Mesh :=
  {| position := position m;
     rotation := rotation m;
     scale := {| vx := v; vy := v; vz := v |} |}.

End Three.

(** ** components/Scene.tsx *)

Module Box.
Import JSX.

(** [interface BoxProps { position?: [number, number, number] }] *)
Record BoxProps : Type := mkBoxProps {
  position : option (float * float * float)
}.

(** The two [useState] cells, both initialised to [false]. *)
Record State : Type := mkState {
  hovered : bool;
  active : bool
}.

Definition initial : State := {| hovered := false; active := false |}.

Definition spread (p : BoxProps) : Props :=
  match position p with
  | Some (x, y, z) => [("position", PVec [x; y; z])]
  | None => []
  end.

(** The element returned by [Box(props)] in a render where the state
    cells hold [s]. *)
Definition render (p : BoxProps) (s : State) : Node :=
  NElem "mesh"
    (spread p ++
     [("ref", PRef "meshRef");
      ("scale", PNum (if active s then 1.5%float else 1%float));
      ("onClick", PHandler (SetActive (negb (active s))));
      ("onPointerOver", PHandler (SetHover true));
      ("onPointerOut", PHandler (SetHover false))])
    [NElem "boxGeometry" [("args", PVec [1%float; 1%float; 1%float])] [];
     NElem "meshStandardMaterial"
       [("color", PStr (if hovered s then "hotpink" else "orange"))] []].

(** What is displayed: the [scale] prop of the mesh and the [color] prop
    of its material. *)
Definition displayed_scale (p : BoxProps) (s : State) : option PropValue :=
  prop "scale" (props_of (render p s)).

Definition displayed_color (p : BoxProps) (s : State) : option PropValue :=
  match elements "meshStandardMaterial" (render p s) with
  | m :: _ => prop "color" (props_of m)
  | [] => None
  end.

(** Calling a handler replaces the contents of one state cell. *)
Definition call (h : Handler) (s : State) : State :=
  match h with
  | SetHover v => {| hovered := v; active := active s |}
  | SetActive v => {| hovered := hovered s; active := v |}
  end.

Inductive Event : Type :=
| Click
| PointerOver
| PointerOut.

Definition handler_prop (e : Event) : string :=
  match e with
  | Click => "onClick"
  | PointerOver => "onPointerOver"
  | PointerOut => "onPointerOut"
  end.

(** The handler that the render with state [rendered] attached for [e]. *)
Definition handler (p : BoxProps) (rendered : State) (e : Event)
  : option Handler :=
  match prop (handler_prop e) (props_of (render p rendered)) with
  | Some (PHandler h) => Some h
  | _ => None
  end.

(** An event reaches the handler of the last committed render; the state
    change is committed before the next event is delivered. *)
Definition dispatch (p : BoxProps) (e : Event) (s : State) : State :=
  match handler p s e with
  | Some h => call h s
  | None => s
  end.

(** The state cell that the handler of an event writes. *)
Definition flag_of (e : Event) (s : State) : bool :=
  match e with
  | Click => active s
  | PointerOver | PointerOut => hovered s
  end.

(** The callback given to [useFrame], acting on [meshRef.current]. *)
Definition useFrame_callback (current : option Three.Mesh) (delta : float)
  : option Three.Mesh :=
  match current with
  | Some m =>
      Some (Three.set_rotation_x m (Three.ex (Three.rotation m) + delta)%float)
  | None => None
  end.

(** The number given as [scale] attribute in a render. *)
Definition scale_attribute (n : Node) : option float :=
  match prop "scale" (props_of n) with
  | Some (PNum v) => Some v
  | _ => None
  end.

(** The commit of a render that follows a state change, seen from the mesh
    that [meshRef] points to: an attribute whose value differs from the one
    of the previous render is applied to the mesh.  Of the attributes of
    the mesh only [scale] depends on the state. *)
Definition commit (p : BoxProps) (previous next : State)
  (current : option Three.Mesh) : option Three.Mesh :=
  match scale_attribute (render p next) with
  | Some v' =>
      match scale_attribute (render p previous) with
      | Some v =>
          if PrimFloat.eqb v v' then current
          else option_map (fun m => Three.set_scale_scalar m v') current
      | None => option_map (fun m => Three.set_scale_scalar m v') current
      end
  | None => current
  end.

(** A mounted box: its props, its state cells and its mesh ref. *)
Record Instance : Type := mkInstance {
  props : BoxProps;
  state : State;
  meshRef : option Three.Mesh
}.

Inductive Step : Type :=
| UI (e : Event)
| Frame (delta : float).

Definition step (i : Instance) (st : Step) : Instance :=
  match st with
  | UI e =>
      let next := dispatch (props i) e (state i) in
      {| props := props i;
         state := next;
         meshRef := commit (props i) (state i) next (meshRef i) |}
  | Frame delta =>
      {| props := props i;
         state := state i;
         meshRef := useFrame_callback (meshRef i) delta |}
  end.

Definition run (steps : list Step) (i : Instance) : Instance :=
  fold_left step steps i.

Definition is_click (st : Step) : bool :=
  match st with
  | UI Click => true
  | _ => false
  end.

Definition is_pointer (st : Step) : bool :=
  match st with
  | UI PointerOver | UI PointerOut => true
  | _ => false
  end.

End Box.


(** [Math.PI], the double nearest to pi. *)
Definition Math_PI : float := 0x1.921fb54442d18p+1%float.

Module Scene.
Import JSX.

(** The element returned by [Scene()]. *)
Definition render : Node :=
  NElem "div" [("className", PStr "w-full h-screen")]
    [NElem "Canvas" []
       [NElem "ambientLight" [("intensity", PNum (Math_PI / 2)%float)] [];
        NElem "spotLight"
          [("position", PVec [10%float; 10%float; 10%float]);
           ("angle", PNum 0.15%float);
           ("penumbra", PNum 1%float);
           ("decay", PNum 0%float);
           ("intensity", PNum Math_PI)] [];
        NElem "pointLight"
          [("position", PVec [(-10)%float; (-10)%float; (-10)%float]);
           ("decay", PNum 0%float);
           ("intensity", PNum Math_PI)] [];
        NElem "Box" [("position", PVec [(-1.2)%float; 0%float; 0%float])] [];
        NElem "Box" [("position", PVec [1.2%float; 0%float; 0%float])] []]].

(** The props object that a [<Box ... />] element hands to [Box]. *)
Definition box_props (n : Node) : option Box.BoxProps :=
  if has_tag "Box" n then
    match prop "position" (props_of n) with
    | Some (PVec [x; y; z]) => Some {| Box.position := Some (x, y, z) |}
    | Some _ => None
    | None => Some {| Box.position := None |}
    end
  else None.


End Scene.

(** ** components/AdvancedScene.tsx *)

Module AdvancedScene.
Import JSX.

Definition Sphere : Node :=
  NElem "mesh" [("position", PVec [0%float; 1%float; 0%float])]
    [NElem "sphereGeometry" [("args", PVec [1%float; 32%float; 32%float])] [];
     NElem "meshStandardMaterial"
       [("color", PStr "#ff6b6b"); ("roughness", PNum 0.1%float)] []].

Definition Ground : Node :=
  NElem "mesh"
    [("rotation", PVec [(- Math_PI / 2)%float; 0%float; 0%float]);
     ("position", PVec [0%float; (-1)%float; 0%float])]
    [NElem "planeGeometry" [("args", PVec [100%float; 100%float])] [];
     NElem "meshStandardMaterial" [("color", PStr "#f0f0f0")] []].

(** The element returned by [AdvancedScene()]. *)
Definition render : Node :=
  NElem "div" [("className", PStr "w-full h-screen")]
    [NElem "Canvas"
       [("shadows", PBool true);
        ("camera",
         PObj [("position", PVec [0%float; 0%float; 5%float]);
               ("fov", PNum 60%float)])]
       [NElem "Suspense" [("fallback", PNode NNull)]
          [NElem "Environment" [("preset", PStr "sunset")] [];
           NElem "Sphere" [] [];
           NElem "Ground" [] [];
           NElem "ContactShadows"
             [("position", PVec [0%float; (-1)%float; 0%float]);
              ("opacity", PNum 0.4%float);
              ("scale", PNum 10%float);
              ("blur", PNum 1.5%float);
              ("far", PNum 10%float)] [];
           NElem "OrbitControls"
             [("enablePan", PBool true);
              ("enableZoom", PBool true);
              ("enableRotate", PBool true)] []]]].

(** The function components declared in the file, by name. *)
Definition component (name : string) : option Node :=
  if String.eqb name "Sphere" then Some Sphere
  else if String.eqb name "Ground" then Some Ground
  else None.

End AdvancedScene.

(** ** components/ClientOnly.tsx

    The file is imported by [app/3d/page.tsx]; its text is the listing given
    for it in [docs/nextjs-r3f-guide.md]. *)

Module ClientOnly.
Import JSX.

(** [interface ClientOnlyProps { children: ReactNode; fallback?: ReactNode }] *)
Record ClientOnlyProps : Type := mkProps {
  children : Node;
  fallback : option Node
}.

(** [{ children, fallback = null }]: the default applies when the prop is
    not supplied. *)
Definition fallback_or_default (p : ClientOnlyProps) : Node :=
  match fallback p with
  | Some f => f
  | None => NNull
  end.

(** The value returned by [ClientOnly(props)] in a render where the state
    cell holds [hasMounted]. *)
Definition render (p : ClientOnlyProps) (hasMounted : bool) : Node :=
  if negb hasMounted then fallback_or_default p
  else NFragment [children p].

Definition initial : bool := false.

(** What can happen to a mounted instance: the effect registered with
    [useEffect(..., [])] runs, or the component renders again. *)
Inductive Event : Type :=
| Effect
| Rerender (p : ClientOnlyProps).

(** The only call of the setter is [setHasMounted(true)], in the effect. *)
Definition step (hasMounted : bool) (e : Event) : bool :=
  match e with
  | Effect => true
  | Rerender _ => hasMounted
  end.

Definition run (es : list Event) (hasMounted : bool) : bool :=
  fold_left step es hasMounted.

(** The props object that a [<ClientOnly ...>...</ClientOnly>] element with
    one child hands to [ClientOnly]. *)
Definition props_of_element (n : Node) : option ClientOnlyProps :=
  match n with
  | NElem tag ps [c] =>
      if String.eqb tag "ClientOnly" then
        match prop "fallback" ps with
        | Some (PNode f) => Some {| children := c; fallback := Some f |}
        | Some _ => None
        | None => Some {| children := c; fallback := None |}
        end
      else None
  | _ => None
  end.

End ClientOnly.

(** ** app/3d/page.tsx *)

Module Page.
Import JSX.

(** The element given as [fallback] to both wrappers. *)
Definition loading : Node :=
  NElem "div" [("className", PStr "flex items-center justify-center h-full")]
    [NText "Loading 3D scene..."].

(** The element returned by [ThreeDPage()]. *)
Definition ThreeDPage : Node :=
  NElem "main" [("className", PStr "min-h-screen bg-gray-50")]
    [NElem "div" [("className", PStr "container mx-auto px-4 py-8")]
       [NElem "h1" [("className", PStr "text-4xl font-bold text-center mb-8")]
          [NText "React Three Fiber Demo"];
        NElem "div"
          [("className", PStr "grid grid-cols-1 lg:grid-cols-2 gap-8 h-[80vh]")]
          [NElem "div"
             [("className", PStr "bg-white rounded-lg shadow-lg overflow-hidden")]
             [NElem "div" [("className", PStr "p-4 bg-gradient-to-r from-blue-500 to-purple-600")]
                [NElem "h2" [("className", PStr "text-xl font-bold text-white")]
                   [NText "Basic Scene"];
                 NElem "p" [("className", PStr "text-blue-100 text-sm")]
                   [NText "Interactive spinning boxes - click to scale, hover to change color"]];
              NElem "div" [("className", PStr "h-full")]
                [NElem "ClientOnly" [("fallback", PNode loading)]
                   [NElem "Scene" [] []]]];
           NElem "div"
             [("className", PStr "bg-white rounded-lg shadow-lg overflow-hidden")]
             [NElem "div" [("className", PStr "p-4 bg-gradient-to-r from-green-500 to-teal-600")]
                [NElem "h2" [("className", PStr "text-xl font-bold text-white")]
                   [NText "Advanced Scene"];
                 NElem "p" [("className", PStr "text-green-100 text-sm")]
                   [NText "Sphere with environment lighting, shadows, and orbit controls"]];
              NElem "div" [("className", PStr "h-full")]
                [NElem "ClientOnly" [("fallback", PNode loading)]
                   [NElem "AdvancedScene" [] []]]]];
        NElem "div" [("className", PStr "mt-8 text-center")]
          [NElem "p" [("className", PStr "text-gray-600 mb-4")]
             [NText "Built with Next.js 15 + React Three Fiber v9 + TypeScript"];
           NElem "div" [("className", PStr "flex justify-center space-x-4")]
             [NElem "a"
                [("href", PStr "/");
                 ("className",
                  PStr "px-6 py-2 bg-blue-500 text-white rounded-lg hover:bg-blue-600 transition-colors")]
                [NText "← Back to Home"];
              NElem "a"
                [("href", PStr "https://r3f.docs.pmnd.rs/");
                 ("target", PStr "_blank");
                 ("rel", PStr "noopener noreferrer");
                 ("className",
                  PStr "px-6 py-2 bg-green-500 text-white rounded-lg hover:bg-green-600 transition-colors")]
                [NText "R3F Documentation →"]]]]].

(** The components imported by the page, by name. *)
Definition component (name : string) : option Node :=
  if String.eqb name "Scene" then Some Scene.render
  else if String.eqb name "AdvancedScene" then Some AdvancedScene.render
  else None.

(** The [ClientOnly] wrappers of the page, in document order. *)
Definition wrappers : list Node := elements "ClientOnly" ThreeDPage.

(** What the [k]-th wrapper of the page renders, given its state cell. *)
Definition wrapper_output (k : nat) (hasMounted : bool) : option Node :=
  match nth_error wrappers k with
  | Some w =>
      match ClientOnly.props_of_element w with
      | Some p => Some (ClientOnly.render p hasMounted)
      | None => None
      end
  | None => None
  end.





End Page.

(** ** The pages of the app

    The README lists two page files under Project Structure, the 3D demo
    page and the homepage; it gives [/3d] as the address of the demo and
    the server root as the address of the app, and the demo page links back
    to [/].  [app/page.tsx] itself is not among the sources. *)

Module App.



End App.

(** ** One step of a box, seen from each flag alone *)

Definition active_after (a : bool) (st : Box.Step) : bool :=
  if Box.is_click st then negb a else a.

Definition hovered_after (h : bool) (st : Box.Step) : bool :=
  match st with
  | Box.UI Box.PointerOver => true
  | Box.UI Box.PointerOut => false
  | _ => h
  end.

(** ** Views of a run of a box *)

Definition is_ui (st : Box.Step) : bool :=
  match st with
  | Box.UI _ => true
  | Box.Frame _ => false
  end.

Definition is_frame (st : Box.Step) : bool :=
  match st with
  | Box.UI _ => false
  | Box.Frame _ => true
  end.

(** The time steps of the frames of a run, in order. *)
Fixpoint frame_deltas (t : list Box.Step) : list float :=
  match t with
  | [] => []
  | Box.Frame delta :: rest => delta :: frame_deltas rest
  | Box.UI _ :: rest => frame_deltas rest
  end.

(** The number of clicks in a run. *)
Definition clicks (t : list Box.Step) : nat :=
  List.length (filter Box.is_click t).

(** The last pointer-over or pointer-out event of a run, if there is one. *)
Fixpoint last_pointer (t : list Box.Step) : option Box.Event :=
  match t with
  | [] => None
  | st :: rest =>
      match last_pointer rest with
      | Some e => Some e
      | None =>
          match st with
          | Box.UI Box.PointerOver => Some Box.PointerOver
          | Box.UI Box.PointerOut => Some Box.PointerOut
          | _ => None
          end
      end
  end.

(** The [position] attribute that [{...props}] puts on the mesh. *)
Definition position_attribute (p : Box.BoxProps) : option JSX.PropValue :=
  match Box.position p with
  | Some (x, y, z) => Some (JSX.PVec [x; y; z])
  | None => None
  end.

(** The mesh of a box shows what the last render asked for: its scale is
    the [scale] attribute of the render of the current state, in all three
    components.  A box without a mesh has nothing to show. *)
Definition scale_in_step (i : Box.Instance) : Prop :=
  match Box.meshRef i with
  | Some m =>
      match Box.scale_attribute (Box.render (Box.props i) (Box.state i)) with
      | Some v => Three.scale m = Three.mkVector3 v v v
      | None => False
      end
  | None => True
  end.

(** ** Views of a run of a wrapper *)

Definition is_effect (e : ClientOnly.Event) : bool :=
  match e with
  | ClientOnly.Effect => true
  | ClientOnly.Rerender _ => false
  end.

(** * Properties *)

Import JSX.

(** ** The box: clicks, hovering, frames *)

Section BoxFacts.

Variable p : Box.BoxProps.

Lemma dispatch_click (s : Box.State) :
  Box.dispatch p Box.Click s
  = {| Box.hovered := Box.hovered s; Box.active := negb (Box.active s) |}.
Proof. destruct p as [[[[x y] z]|]]; reflexivity. Qed.

Lemma dispatch_over (s : Box.State) :
  Box.dispatch p Box.PointerOver s
  = {| Box.hovered := true; Box.active := Box.active s |}.
Proof. destruct p as [[[[x y] z]|]]; reflexivity. Qed.

Lemma dispatch_out (s : Box.State) :
  Box.dispatch p Box.PointerOut s
  = {| Box.hovered := false; Box.active := Box.active s |}.
Proof. destruct p as [[[[x y] z]|]]; reflexivity. Qed.

Lemma scale_of_state (s : Box.State) :
  Box.displayed_scale p s
  = Some (PNum (if Box.active s then 1.5 else 1)%float).
Proof. destruct p as [[[[x y] z]|]]; reflexivity. Qed.

Lemma color_of_state (s : Box.State) :
  Box.displayed_color p s
  = Some (PStr (if Box.hovered s then "hotpink" else "orange")).
Proof. reflexivity. Qed.

End BoxFacts.

(** A session on the left box of the scene: enter, click, two frames, leave. *)
Example left_box_session :
  let i := {| Box.props := {| Box.position := Some (-1.2, 0, 0)%float |};
              Box.state := Box.initial;
              Box.meshRef :=
                Some {| Three.position := Three.mkVector3 (-1.2) 0 0;
                        Three.rotation := Three.mkEuler 0 0 0;
                        Three.scale := Three.mkVector3 1 1 1 |} |} in
  let i' := Box.run [Box.UI Box.PointerOver; Box.UI Box.Click;
                     Box.Frame 0.5%float; Box.Frame 0.25%float;
                     Box.UI Box.PointerOut] i in
  Box.state i' = {| Box.hovered := false; Box.active := true |}
  /\ Box.displayed_scale (Box.props i') (Box.state i') = Some (PNum 1.5%float)
  /\ Box.displayed_color (Box.props i') (Box.state i') = Some (PStr "orange")
  /\ option_map Three.rotation (Box.meshRef i')
     = Some (Three.mkEuler 0.75 0 0).
Proof. vm_compute. repeat split; reflexivity. Qed.

(** The click handler is a closure over the [active] of its render: kept
    and called twice without a render in between, it writes the same value
    twice.  [Box.dispatch] therefore takes the handler of the committed
    render at every event. *)
Lemma stale_click_handler_writes_once (p : Box.BoxProps) (s : Box.State) :
  forall h, Box.handler p s Box.Click = Some h ->
    Box.call h (Box.call h s) = Box.call h s.
Proof.
  destruct p as [[[[x y] z]|]]; intros h E; cbv in E;
    injection E as <-; reflexivity.
Qed.

(** C1.  For every box and every click, the click handler replaces [active]
    by its negation; the displayed scale is 1.5 when [active] holds and 1
    when it does not; so a click takes a displayed scale of 1 to 1.5 and a
    displayed scale of 1.5 to 1. *)
Theorem click_toggles_scale (p : Box.BoxProps) (s : Box.State) :
  Box.active (Box.dispatch p Box.Click s) = negb (Box.active s)
  /\ Box.displayed_scale p s
     = Some (PNum (if Box.active s then 1.5 else 1)%float)
  /\ Box.displayed_scale p (Box.dispatch p Box.Click s)
     = Some (PNum (if Box.active s then 1 else 1.5)%float).
Proof.
  rewrite dispatch_click, !scale_of_state; cbn.
  destruct (Box.active s); auto.
Qed.

(** C2.  The displayed material color is "hotpink" when [hovered] holds and
    "orange" when it does not; a pointer-over event makes [hovered] true and
    a pointer-out event makes it false; so entering shows hotpink and
    leaving shows orange again. *)
Theorem hover_sets_color (p : Box.BoxProps) (s : Box.State) :
  Box.displayed_color p s
  = Some (PStr (if Box.hovered s then "hotpink" else "orange"))
  /\ Box.hovered (Box.dispatch p Box.PointerOver s) = true
  /\ Box.hovered (Box.dispatch p Box.PointerOut s) = false
  /\ Box.displayed_color p (Box.dispatch p Box.PointerOver s)
     = Some (PStr "hotpink")
  /\ Box.displayed_color p
       (Box.dispatch p Box.PointerOut (Box.dispatch p Box.PointerOver s))
     = Some (PStr "orange").
Proof.
  rewrite !dispatch_out, !dispatch_over, !color_of_state; cbn; auto.
Qed.

(** C3.  On a frame with time step [delta], the frame callback of a box
    whose mesh has x rotation [r] leaves the mesh with x rotation
    [r + delta], the sum being the one of JavaScript numbers. *)
Theorem frame_adds_delta (p : Box.BoxProps) (s : Box.State)
  (pos scl : Three.Vector3) (r y z delta : float) :
  let m := {| Three.position := pos;
              Three.rotation := {| Three.ex := r; Three.ey := y; Three.ez := z |};
              Three.scale := scl |} in
  let i := {| Box.props := p; Box.state := s; Box.meshRef := Some m |} in
  option_map (fun m' => Three.ex (Three.rotation m'))
    (Box.meshRef (Box.step i (Box.Frame delta)))
  = Some (r + delta)%float.
Proof. reflexivity. Qed.

(** C7.  Two clicks in a row give back the state they started from, hence
    the same [active] flag and the same displayed scale. *)
Theorem click_twice (p : Box.BoxProps) (s : Box.State) :
  Box.dispatch p Box.Click (Box.dispatch p Box.Click s) = s
  /\ Box.active (Box.dispatch p Box.Click (Box.dispatch p Box.Click s))
     = Box.active s
  /\ Box.displayed_scale p (Box.dispatch p Box.Click (Box.dispatch p Box.Click s))
     = Box.displayed_scale p s.
Proof.
  assert (E : Box.dispatch p Box.Click (Box.dispatch p Box.Click s) = s).
  { rewrite !dispatch_click; cbn. rewrite negb_involutive. now destruct s. }
  rewrite E; auto.
Qed.

(** C8.  A frame changes nothing but the x rotation of the mesh: the props,
    both flags, the displayed scale and color, and the y rotation, z
    rotation, position and scale of the mesh (and whether there is a mesh)
    are the same after the frame as before. *)
Theorem frame_changes_rotation_x_only (i : Box.Instance) (delta : float) :
  let i' := Box.step i (Box.Frame delta) in
  Box.props i' = Box.props i
  /\ Box.hovered (Box.state i') = Box.hovered (Box.state i)
  /\ Box.active (Box.state i') = Box.active (Box.state i)
  /\ Box.displayed_scale (Box.props i') (Box.state i')
     = Box.displayed_scale (Box.props i) (Box.state i)
  /\ Box.displayed_color (Box.props i') (Box.state i')
     = Box.displayed_color (Box.props i) (Box.state i)
  /\ option_map (fun m => Three.ey (Three.rotation m)) (Box.meshRef i')
     = option_map (fun m => Three.ey (Three.rotation m)) (Box.meshRef i)
  /\ option_map (fun m => Three.ez (Three.rotation m)) (Box.meshRef i')
     = option_map (fun m => Three.ez (Three.rotation m)) (Box.meshRef i)
  /\ option_map Three.position (Box.meshRef i')
     = option_map Three.position (Box.meshRef i)
  /\ option_map Three.scale (Box.meshRef i')
     = option_map Three.scale (Box.meshRef i).
Proof.
  destruct i as [p s [m|]]; cbn; repeat split; reflexivity.
Qed.

(** ** Events as set or toggle *)

(** C4, as stated, fails: with the pointer already over the box, the
    pointer-over handler leaves the hover flag as it is. *)
Lemma pointer_over_keeps_hovered :
  let p := {| Box.position := None |} in
  let s := {| Box.hovered := true; Box.active := false |} in
  Box.flag_of Box.PointerOver (Box.dispatch p Box.PointerOver s)
  <> negb (Box.flag_of Box.PointerOver s).
Proof. cbv. discriminate. Qed.

Lemma all_states_reachable (p : Box.BoxProps) (m : option Three.Mesh)
  (h a : bool) :
  exists steps : list Box.Step,
    Box.state (Box.run steps {| Box.props := p; Box.state := Box.initial;
                                Box.meshRef := m |})
    = {| Box.hovered := h; Box.active := a |}.
Proof.
  exists ((if h then [Box.UI Box.PointerOver] else [])
          ++ (if a then [Box.UI Box.Click] else [])).
  destruct h, a; cbn; rewrite ?dispatch_click, ?dispatch_over; reflexivity.
Qed.

(** C4, amended.  A click replaces [active] by its negation.  A pointer-over
    event sets [hovered] to true and a pointer-out event sets it to false,
    whatever it was, so such an event inverts the flag exactly when it
    arrives with the flag in the other position.  The state of a box is
    these two booleans, and every combination of them is reached from the
    initial state. *)
Theorem events_invert_or_set (p : Box.BoxProps) (s : Box.State) :
  Box.active (Box.dispatch p Box.Click s) = negb (Box.active s)
  /\ Box.hovered (Box.dispatch p Box.PointerOver s) = true
  /\ Box.hovered (Box.dispatch p Box.PointerOut s) = false
  /\ (Box.hovered (Box.dispatch p Box.PointerOver s) = negb (Box.hovered s)
      <-> Box.hovered s = false)
  /\ (Box.hovered (Box.dispatch p Box.PointerOut s) = negb (Box.hovered s)
      <-> Box.hovered s = true)
  /\ s = {| Box.hovered := Box.hovered s; Box.active := Box.active s |}
  /\ (forall (m : option Three.Mesh) (h a : bool),
        exists steps : list Box.Step,
          Box.state (Box.run steps {| Box.props := p; Box.state := Box.initial;
                                      Box.meshRef := m |})
          = {| Box.hovered := h; Box.active := a |}).
Proof.
  rewrite dispatch_click, dispatch_over, dispatch_out; cbn.
  repeat split; try (destruct (Box.hovered s); cbn; congruence).
  - now destruct s.
  - intros m h a. apply all_states_reachable.
Qed.

(** ** Independence of hovering and clicking *)

Section FoldFilter.

Context {A B : Type} (keep : A -> bool) (f : B -> A -> B).
Hypothesis skip : forall b x, keep x = false -> f b x = b.

Lemma fold_left_filter (l : list A) (b : B) :
  fold_left f l b = fold_left f (filter keep l) b.
Proof.
  revert b. induction l as [|x l IH]; intros b; cbn; [reflexivity|].
  destruct (keep x) eqn:K; cbn.
  - apply IH.
  - rewrite (skip b x K). apply IH.
Qed.

End FoldFilter.

Lemma active_step (i : Box.Instance) (st : Box.Step) :
  Box.active (Box.state (Box.step i st))
  = active_after (Box.active (Box.state i)) st.
Proof.
  destruct st as [[| |]|d]; cbn;
    rewrite ?dispatch_click, ?dispatch_over, ?dispatch_out; reflexivity.
Qed.

Lemma hovered_step (i : Box.Instance) (st : Box.Step) :
  Box.hovered (Box.state (Box.step i st))
  = hovered_after (Box.hovered (Box.state i)) st.
Proof.
  destruct st as [[| |]|d]; cbn;
    rewrite ?dispatch_click, ?dispatch_over, ?dispatch_out; reflexivity.
Qed.

Lemma active_run (t : list Box.Step) (i : Box.Instance) :
  Box.active (Box.state (Box.run t i))
  = fold_left active_after t (Box.active (Box.state i)).
Proof.
  revert i. induction t as [|st t IH]; intros i; cbn; [reflexivity|].
  unfold Box.run in IH. rewrite IH, active_step. reflexivity.
Qed.

Lemma hovered_run (t : list Box.Step) (i : Box.Instance) :
  Box.hovered (Box.state (Box.run t i))
  = fold_left hovered_after t (Box.hovered (Box.state i)).
Proof.
  revert i. induction t as [|st t IH]; intros i; cbn; [reflexivity|].
  unfold Box.run in IH. rewrite IH, hovered_step. reflexivity.
Qed.

Lemma active_run_clicks (t : list Box.Step) (i : Box.Instance) :
  Box.active (Box.state (Box.run t i))
  = fold_left active_after (filter Box.is_click t) (Box.active (Box.state i)).
Proof.
  rewrite active_run. apply fold_left_filter.
  intros b x K. unfold active_after. now rewrite K.
Qed.

Lemma hovered_run_pointer (t : list Box.Step) (i : Box.Instance) :
  Box.hovered (Box.state (Box.run t i))
  = fold_left hovered_after (filter Box.is_pointer t)
      (Box.hovered (Box.state i)).
Proof.
  rewrite hovered_run. apply fold_left_filter.
  intros b [[| |]|d] K; cbn in *; congruence.
Qed.

(** C10.  Pointer events leave [active] alone and clicks leave [hovered]
    alone.  Two runs that start with the same [active] flag and contain the
    same click events end with the same displayed scale; two runs that
    start with the same [hovered] flag and contain the same pointer events
    end with the same displayed color.  Frames and the events of the other
    kind may differ freely between the two runs. *)
Theorem hover_click_independent :
  (forall p s,
      Box.active (Box.dispatch p Box.PointerOver s) = Box.active s
      /\ Box.active (Box.dispatch p Box.PointerOut s) = Box.active s
      /\ Box.hovered (Box.dispatch p Box.Click s) = Box.hovered s)
  /\ (forall i1 i2 t1 t2,
        Box.active (Box.state i1) = Box.active (Box.state i2) ->
        filter Box.is_click t1 = filter Box.is_click t2 ->
        Box.displayed_scale (Box.props (Box.run t1 i1)) (Box.state (Box.run t1 i1))
        = Box.displayed_scale (Box.props (Box.run t2 i2)) (Box.state (Box.run t2 i2)))
  /\ (forall i1 i2 t1 t2,
        Box.hovered (Box.state i1) = Box.hovered (Box.state i2) ->
        filter Box.is_pointer t1 = filter Box.is_pointer t2 ->
        Box.displayed_color (Box.props (Box.run t1 i1)) (Box.state (Box.run t1 i1))
        = Box.displayed_color (Box.props (Box.run t2 i2)) (Box.state (Box.run t2 i2))).
Proof.
  split; [|split].
  - intros p s. rewrite dispatch_click, dispatch_over, dispatch_out. cbn. auto.
  - intros i1 i2 t1 t2 Ha Ht.
    rewrite !scale_of_state, !active_run_clicks, Ha, Ht. reflexivity.
  - intros i1 i2 t1 t2 Hh Ht.
    rewrite !color_of_state, !hovered_run_pointer, Hh, Ht. reflexivity.
Qed.

(** An instance of C10: a run with hovering and frames mixed in against a
    run of the bare clicks, and a run with clicks mixed in against a run of
    the bare pointer events. *)
Lemma hover_click_independent_witness :
  let i := {| Box.props := {| Box.position := Some (1.2, 0, 0)%float |};
              Box.state := Box.initial;
              Box.meshRef := None |} in
  let t1 := [Box.UI Box.PointerOver; Box.UI Box.Click; Box.Frame 0.5%float;
             Box.UI Box.PointerOut] in
  let t2 := [Box.UI Box.Click] in
  let t3 := [Box.UI Box.PointerOver; Box.UI Box.PointerOut] in
  (Box.active (Box.state i) = Box.active (Box.state i)
   /\ filter Box.is_click t1 = filter Box.is_click t2
   /\ Box.displayed_scale (Box.props (Box.run t1 i)) (Box.state (Box.run t1 i))
      = Box.displayed_scale (Box.props (Box.run t2 i)) (Box.state (Box.run t2 i)))
  /\ (Box.hovered (Box.state i) = Box.hovered (Box.state i)
      /\ filter Box.is_pointer t1 = filter Box.is_pointer t3
      /\ Box.displayed_color (Box.props (Box.run t1 i)) (Box.state (Box.run t1 i))
         = Box.displayed_color (Box.props (Box.run t3 i)) (Box.state (Box.run t3 i))).
Proof.
  intros i t1 t2 t3.
  destruct hover_click_independent as [_ [HS HC]].
  split.
  - split; [reflexivity|]. split; [reflexivity|].
    apply (HS i i t1 t2); reflexivity.
  - split; [reflexivity|]. split; [reflexivity|].
    apply (HC i i t1 t3); reflexivity.
Defined.

(** ** The wrapper and the page *)

(** C5, as stated, fails for a wrapper whose fallback is its own wrapped
    children: its output is the fallback although it has mounted. *)
Lemma fallback_same_as_children :
  let c := NElem "Scene" [] [] in
  let p := {| ClientOnly.children := c;
              ClientOnly.fallback := Some (NFragment [c]) |} in
  ~ (ClientOnly.render p true = ClientOnly.fallback_or_default p
     <-> true = false).
Proof. intros c p [H _]. discriminate (H eq_refl). Qed.

(** C5, amended.  A wrapper that has not mounted renders its fallback,
    which is [null] when none is supplied, and a wrapper that has mounted
    renders its children.  When the fallback differs from the wrapped
    children, the output is the fallback exactly when [hasMounted] is false
    and the children exactly when it is true.  On the page, each of the two
    wrappers renders the loading element before it has mounted and its
    scene afterwards. *)
Theorem client_only_render (c : Node) (fb : option Node) (hasMounted : bool) :
  let p := {| ClientOnly.children := c; ClientOnly.fallback := fb |} in
  let shown_before := match fb with Some f => f | None => NNull end in
  let shown_after := NFragment [c] in
  ClientOnly.render p false = shown_before
  /\ ClientOnly.render p true = shown_after
  /\ ClientOnly.render
       {| ClientOnly.children := c; ClientOnly.fallback := None |} false
     = NNull
  /\ (shown_before <> shown_after ->
      (ClientOnly.render p hasMounted = shown_before <-> hasMounted = false)
      /\ (ClientOnly.render p hasMounted = shown_after <-> hasMounted = true))
  /\ Page.wrapper_output 0 false = Some Page.loading
  /\ Page.wrapper_output 0 true = Some (NFragment [NElem "Scene" [] []])
  /\ Page.wrapper_output 1 false = Some Page.loading
  /\ Page.wrapper_output 1 true = Some (NFragment [NElem "AdvancedScene" [] []]).
Proof.
  cbv zeta.
  split; [reflexivity|]. split; [reflexivity|]. split; [reflexivity|].
  split; [|repeat split; reflexivity].
  intros D. unfold ClientOnly.render, ClientOnly.fallback_or_default.
  destruct hasMounted; cbn; split; split; intros H;
    try reflexivity; try discriminate.
  - exfalso. apply D. symmetry. exact H.
  - exfalso. apply D. exact H.
Qed.

(** An instance of C5: the first wrapper of the page, mounted. *)
Lemma client_only_render_witness :
  let c := NElem "Scene" [] [] in
  let p := {| ClientOnly.children := c;
              ClientOnly.fallback := Some Page.loading |} in
  Page.loading <> NFragment [c]
  /\ (ClientOnly.render p true = Page.loading <-> true = false)
  /\ (ClientOnly.render p true = NFragment [c] <-> true = true).
Proof.
  intros c p.
  assert (D : Page.loading <> NFragment [c]) by (cbv; discriminate).
  split; [exact D|].
  destruct (client_only_render c (Some Page.loading) true)
    as (_ & _ & _ & H & _).
  exact (H D).
Defined.

(** C9.  The only value ever written to [hasMounted] is [true]: a step
    either sets it or leaves it, a mounted wrapper stays mounted whatever
    happens next, and from then on it renders its children, never the
    fallback branch. *)
Theorem mounted_is_monotone :
  (forall m e, ClientOnly.step m e = true \/ ClientOnly.step m e = m)
  /\ (forall es, ClientOnly.run es true = true)
  /\ (forall es1 es2,
        ClientOnly.run es1 ClientOnly.initial = true ->
        ClientOnly.run (es1 ++ es2) ClientOnly.initial = true)
  /\ (forall p es,
        ClientOnly.render p (ClientOnly.run es true)
        = NFragment [ClientOnly.children p]).
Proof.
  assert (stay : forall es, ClientOnly.run es true = true).
  { induction es as [|e es IH]; [reflexivity|].
    destruct e; exact IH. }
  split; [|split; [exact stay|split]].
  - intros m [|q]; cbn; auto.
  - intros es1 es2 H. unfold ClientOnly.run in *.
    rewrite fold_left_app, H. apply stay.
  - intros q es. rewrite stay. reflexivity.
Qed.

(** An instance of C9: the effect runs, then the wrapper renders again and
    the effect runs once more. *)
Lemma mounted_is_monotone_witness :
  let q := {| ClientOnly.children := NElem "Scene" [] [];
              ClientOnly.fallback := Some Page.loading |} in
  ClientOnly.run [ClientOnly.Effect] ClientOnly.initial = true
  /\ ClientOnly.run
       ([ClientOnly.Effect] ++ [ClientOnly.Rerender q; ClientOnly.Effect])
       ClientOnly.initial = true.
Proof.
  intros q. split; [reflexivity|].
  destruct mounted_is_monotone as (_ & _ & H & _).
  apply (H [ClientOnly.Effect]). reflexivity.
Defined.



(** * Further properties of the box *)

Section BoxRuns.

Lemma props_run (t : list Box.Step) (i : Box.Instance) :
  Box.props (Box.run t i) = Box.props i.
Proof.
  revert i. induction t as [|st t IH]; intros i; [reflexivity|].
  cbn. unfold Box.run in IH. rewrite IH. now destruct st.
Qed.

Lemma state_run_ext (t : list Box.Step) (i j : Box.Instance) :
  Box.props i = Box.props j -> Box.state i = Box.state j ->
  Box.state (Box.run t i) = Box.state (Box.run t j).
Proof.
  revert i j. induction t as [|st t IH]; intros i j Hp Hs; [exact Hs|].
  cbn. apply IH; destruct st; cbn; congruence.
Qed.

End BoxRuns.

(** X1.  After any run, [active] is its initial value flipped once per
    click: it differs from the initial value exactly when the run has an odd
    number of clicks.  For a box that starts in its initial state the
    displayed scale is 1.5 after an odd number of clicks and 1 after an
    even number. *)
Theorem click_parity (t : list Box.Step) (i : Box.Instance) :
  Box.active (Box.state (Box.run t i))
  = xorb (Box.active (Box.state i)) (Nat.odd (clicks t))
  /\ Box.displayed_scale (Box.props i)
       (Box.state (Box.run t {| Box.props := Box.props i;
                                Box.state := Box.initial;
                                Box.meshRef := Box.meshRef i |}))
     = Some (PNum (if Nat.odd (clicks t) then 1.5 else 1)%float).
Proof.
  assert (P : forall t i,
             Box.active (Box.state (Box.run t i))
             = xorb (Box.active (Box.state i)) (Nat.odd (clicks t))).
  { clear. induction t as [|st t IH]; intros i.
    - cbn. now rewrite xorb_false_r.
    - change (Box.run (st :: t) i) with (Box.run t (Box.step i st)).
      rewrite IH, active_step. unfold active_after, clicks. cbn [filter].
      destruct (Box.is_click st); [|reflexivity].
      cbn [List.length]. rewrite Nat.odd_succ, <- Nat.negb_odd.
      destruct (Box.active (Box.state i)), (Nat.odd _); reflexivity. }
  split; [apply P|].
  rewrite scale_of_state, P. cbn. now destruct (Nat.odd (clicks t)).
Qed.

Lemma last_pointer_not_click (t : list Box.Step) :
  last_pointer t <> Some Box.Click.
Proof.
  induction t as [|st t IH]; cbn; [discriminate|].
  destruct (last_pointer t) as [e|]; [exact IH|].
  destruct st as [[| |]|d]; discriminate.
Qed.

(** X2.  After any run, [hovered] is decided by the last pointer event of
    the run alone: true after a pointer-over, false after a pointer-out, and
    the initial value when the run has no pointer event. *)
Theorem last_pointer_event_wins (t : list Box.Step) (i : Box.Instance) :
  Box.hovered (Box.state (Box.run t i))
  = match last_pointer t with
    | Some Box.PointerOver => true
    | Some Box.PointerOut => false
    | _ => Box.hovered (Box.state i)
    end.
Proof.
  revert i. induction t as [|st t IH]; intros i; [reflexivity|].
  change (Box.run (st :: t) i) with (Box.run t (Box.step i st)).
  rewrite IH, hovered_step. cbn [last_pointer].
  pose proof (last_pointer_not_click t) as N.
  destruct (last_pointer t) as [[| |]|]; try reflexivity;
    [now contradiction N|].
  destruct st as [[| |]|d]; reflexivity.
Qed.

(** X3.  A pointer event overwrites what an earlier pointer event did, so
    repeating one changes nothing; a click and a pointer event can be
    swapped. *)
Theorem pointer_events_absorb (p : Box.BoxProps) (s : Box.State)
  (e1 e2 : Box.Event) :
  e1 <> Box.Click -> e2 <> Box.Click ->
  Box.dispatch p e2 (Box.dispatch p e1 s) = Box.dispatch p e2 s
  /\ Box.dispatch p e1 (Box.dispatch p e1 s) = Box.dispatch p e1 s
  /\ Box.dispatch p Box.Click (Box.dispatch p e1 s)
     = Box.dispatch p e1 (Box.dispatch p Box.Click s).
Proof.
  intros H1 H2.
  destruct e1, e2; try congruence;
    rewrite ?dispatch_click, ?dispatch_over, ?dispatch_out; cbn;
    repeat split; reflexivity.
Qed.

Lemma pointer_events_absorb_witness :
  let p := {| Box.position := None |} in
  Box.PointerOver <> Box.Click /\ Box.PointerOut <> Box.Click
  /\ Box.dispatch p Box.PointerOut (Box.dispatch p Box.PointerOver Box.initial)
     = Box.dispatch p Box.PointerOut Box.initial.
Proof.
  intros p.
  assert (A : Box.PointerOver <> Box.Click) by discriminate.
  assert (B : Box.PointerOut <> Box.Click) by discriminate.
  split; [exact A|]. split; [exact B|].
  exact (proj1 (pointer_events_absorb p Box.initial _ _ A B)).
Defined.

Lemma state_run_frames (t : list Box.Step) (i : Box.Instance) :
  Box.state (Box.run (filter is_frame t) i) = Box.state i.
Proof.
  revert i. induction t as [|[e|d] t IH]; intros i; cbn; [reflexivity|apply IH|].
  change (fold_left Box.step (filter is_frame t) ?j) with
    (Box.run (filter is_frame t) j).
  now rewrite IH.
Qed.

Lemma state_run_ui (t : list Box.Step) (i : Box.Instance) :
  Box.state (Box.run t i) = Box.state (Box.run (filter is_ui t) i).
Proof.
  revert i. induction t as [|[e|d] t IH]; intros i; [reflexivity| |].
  - change (Box.run (Box.UI e :: t) i) with (Box.run t (Box.step i (Box.UI e))).
    rewrite IH. reflexivity.
  - change (Box.run (Box.Frame d :: t) i)
      with (Box.run t (Box.step i (Box.Frame d))).
    rewrite IH. cbn [filter is_ui]. apply state_run_ext; reflexivity.
Qed.

Lemma instance_ext (i j : Box.Instance) :
  Box.props i = Box.props j -> Box.state i = Box.state j ->
  Box.meshRef i = Box.meshRef j -> i = j.
Proof. destruct i, j; cbn; congruence. Qed.

(** What the commit after an event does to the mesh: a click changes the
    [scale] attribute, so the new number is applied; a pointer event leaves
    the attribute as it was, so nothing is applied. *)
Lemma commit_dispatch (p : Box.BoxProps) (s : Box.State) (e : Box.Event)
  (c : option Three.Mesh) :
  Box.commit p s (Box.dispatch p e s) c
  = match e with
    | Box.Click =>
        option_map
          (fun m => Three.set_scale_scalar m
                      (if Box.active s then 1 else 1.5)%float) c
    | _ => c
    end.
Proof.
  destruct p as [[[[x y] z]|]], e, s as [h [|]], c as [m|]; reflexivity.
Qed.

Lemma step_ui_mesh (i : Box.Instance) (e : Box.Event) :
  Box.meshRef (Box.step i (Box.UI e))
  = match e with
    | Box.Click =>
        option_map
          (fun m => Three.set_scale_scalar m
                      (if Box.active (Box.state i) then 1 else 1.5)%float)
          (Box.meshRef i)
    | _ => Box.meshRef i
    end.
Proof. cbn. apply commit_dispatch. Qed.

Lemma steps_commute (i : Box.Instance) (e : Box.Event) (d : float) :
  Box.step (Box.step i (Box.Frame d)) (Box.UI e)
  = Box.step (Box.step i (Box.UI e)) (Box.Frame d).
Proof.
  apply instance_ext; [reflexivity|reflexivity|].
  cbn [Box.step Box.props Box.state Box.meshRef].
  rewrite !commit_dispatch.
  destruct e, (Box.meshRef i) as [m|]; reflexivity.
Qed.

Lemma frame_past_events (t : list Box.Step) (i : Box.Instance) (d : float) :
  Box.run (filter is_ui t) (Box.step i (Box.Frame d))
  = Box.step (Box.run (filter is_ui t) i) (Box.Frame d).
Proof.
  revert i. induction t as [|[e|d'] t IH]; intros i; [reflexivity| |apply IH].
  cbn [filter is_ui].
  change (Box.run (Box.UI e :: ?l) ?j) with (Box.run l (Box.step j (Box.UI e))).
  rewrite steps_commute. apply IH.
Qed.

Lemma events_first (t : list Box.Step) (i : Box.Instance) :
  Box.run t i = Box.run (filter is_ui t ++ filter is_frame t) i.
Proof.
  revert i. induction t as [|[e|d] t IH]; intros i; [reflexivity| |].
  - change (Box.run (Box.UI e :: t) i) with (Box.run t (Box.step i (Box.UI e))).
    rewrite IH. reflexivity.
  - change (Box.run (Box.Frame d :: t) i)
      with (Box.run t (Box.step i (Box.Frame d))).
    rewrite IH. cbn [filter is_ui is_frame]. unfold Box.run.
    rewrite !fold_left_app. cbn [fold_left]. f_equal.
    apply frame_past_events.
Qed.

Lemma rotation_step_ext (st : Box.Step) (i j : Box.Instance) :
  option_map Three.rotation (Box.meshRef i)
  = option_map Three.rotation (Box.meshRef j) ->
  option_map Three.rotation (Box.meshRef (Box.step i st))
  = option_map Three.rotation (Box.meshRef (Box.step j st)).
Proof.
  intros H. destruct st as [e|d].
  - rewrite !step_ui_mesh.
    destruct e, (Box.meshRef i) as [m|], (Box.meshRef j) as [n|];
      cbn in *; congruence.
  - cbn. destruct (Box.meshRef i) as [m|], (Box.meshRef j) as [n|];
      cbn in *; congruence.
Qed.

Lemma rotation_run_ext (t : list Box.Step) (i j : Box.Instance) :
  option_map Three.rotation (Box.meshRef i)
  = option_map Three.rotation (Box.meshRef j) ->
  option_map Three.rotation (Box.meshRef (Box.run t i))
  = option_map Three.rotation (Box.meshRef (Box.run t j)).
Proof.
  revert i j. induction t as [|st t IH]; intros i j H; [exact H|].
  change (Box.run (st :: t) ?k) with (Box.run t (Box.step k st)).
  apply IH, rotation_step_ext, H.
Qed.

Lemma scale_step_ext (st : Box.Step) (i j : Box.Instance) :
  Box.active (Box.state i) = Box.active (Box.state j) ->
  option_map Three.scale (Box.meshRef i)
  = option_map Three.scale (Box.meshRef j) ->
  option_map Three.scale (Box.meshRef (Box.step i st))
  = option_map Three.scale (Box.meshRef (Box.step j st)).
Proof.
  intros A H. destruct st as [e|d].
  - rewrite !step_ui_mesh, A.
    destruct e, (Box.meshRef i) as [m|], (Box.meshRef j) as [n|];
      cbn in *; congruence.
  - cbn. destruct (Box.meshRef i) as [m|], (Box.meshRef j) as [n|];
      cbn in *; congruence.
Qed.

Lemma scale_run_ext (t : list Box.Step) (i j : Box.Instance) :
  Box.active (Box.state i) = Box.active (Box.state j) ->
  option_map Three.scale (Box.meshRef i)
  = option_map Three.scale (Box.meshRef j) ->
  option_map Three.scale (Box.meshRef (Box.run t i))
  = option_map Three.scale (Box.meshRef (Box.run t j)).
Proof.
  revert i j. induction t as [|st t IH]; intros i j A H; [exact H|].
  change (Box.run (st :: t) ?k) with (Box.run t (Box.step k st)).
  apply IH; [|now apply scale_step_ext].
  now rewrite !active_step, A.
Qed.

Lemma position_run (t : list Box.Step) (i : Box.Instance) :
  option_map Three.position (Box.meshRef (Box.run t i))
  = option_map Three.position (Box.meshRef i).
Proof.
  revert i. induction t as [|[e|d] t IH]; intros i; [reflexivity| |].
  - change (Box.run (Box.UI e :: t) i) with (Box.run t (Box.step i (Box.UI e))).
    rewrite IH, step_ui_mesh.
    destruct e, (Box.meshRef i) as [m|]; reflexivity.
  - change (Box.run (Box.Frame d :: t) i)
      with (Box.run t (Box.step i (Box.Frame d))).
    rewrite IH. cbn. destruct (Box.meshRef i) as [m|]; reflexivity.
Qed.

(** X4.  Events and frames act on different parts of a box.  After a run
    the flags are those given by the click and pointer events of the run
    alone; the rotation of the mesh is the one given by the frames alone;
    the scale of the mesh is the one given by the events alone; the
    position of the mesh is the one it had.  So any interleaving of events
    and frames ends in the same instance as the events followed by the
    frames. *)
Theorem events_and_frames_separate (t : list Box.Step) (i : Box.Instance) :
  Box.state (Box.run t i) = Box.state (Box.run (filter is_ui t) i)
  /\ option_map Three.rotation (Box.meshRef (Box.run t i))
     = option_map Three.rotation (Box.meshRef (Box.run (filter is_frame t) i))
  /\ option_map Three.scale (Box.meshRef (Box.run t i))
     = option_map Three.scale (Box.meshRef (Box.run (filter is_ui t) i))
  /\ option_map Three.position (Box.meshRef (Box.run t i))
     = option_map Three.position (Box.meshRef i)
  /\ Box.run t i = Box.run (filter is_ui t ++ filter is_frame t) i.
Proof.
  split; [apply state_run_ui|].
  split; [|split; [|split; [apply position_run|apply events_first]]].
  - revert i. induction t as [|[e|d] t IH]; intros i; [reflexivity| |].
    + change (Box.run (Box.UI e :: t) i)
        with (Box.run t (Box.step i (Box.UI e))).
      rewrite IH. cbn [filter is_frame]. apply rotation_run_ext.
      rewrite step_ui_mesh.
      destruct e, (Box.meshRef i) as [m|]; reflexivity.
    + change (Box.run (Box.Frame d :: t) i)
        with (Box.run t (Box.step i (Box.Frame d))).
      rewrite IH. reflexivity.
  - revert i. induction t as [|[e|d] t IH]; intros i; [reflexivity| |].
    + change (Box.run (Box.UI e :: t) i)
        with (Box.run t (Box.step i (Box.UI e))).
      rewrite IH. reflexivity.
    + change (Box.run (Box.Frame d :: t) i)
        with (Box.run t (Box.step i (Box.Frame d))).
      rewrite IH. cbn [filter is_ui]. apply scale_run_ext; [reflexivity|].
      cbn. destruct (Box.meshRef i) as [m|]; reflexivity.
Qed.

(** X5.  While [meshRef.current] is null a frame does nothing at all: the
    instance is the same after it, the ref is still null after any run, and
    the flags are those that the events of the run give without the
    frames. *)
Theorem frames_without_mesh (i : Box.Instance) :
  Box.meshRef i = None ->
  (forall delta, Box.step i (Box.Frame delta) = i)
  /\ (forall t, Box.meshRef (Box.run t i) = None)
  /\ (forall t, Box.run t i = Box.run (filter is_ui t) i).
Proof.
  intros N.
  assert (M : forall t j, Box.meshRef j = None ->
                          Box.meshRef (Box.run t j) = None).
  { clear. induction t as [|[e|d] t IH]; intros j Hj; [exact Hj| |];
      apply IH.
    - rewrite step_ui_mesh, Hj. now destruct e.
    - cbn. now rewrite Hj. }
  split; [|split].
  - intros delta. destruct i as [p s m]; cbn in *. now subst m.
  - intros t. now apply M.
  - intros t. apply instance_ext.
    + now rewrite !props_run.
    + apply state_run_ui.
    + rewrite !M; auto.
Qed.

Lemma frames_without_mesh_witness :
  let i := {| Box.props := {| Box.position := Some (-1.2, 0, 0)%float |};
              Box.state := Box.initial;
              Box.meshRef := None |} in
  Box.meshRef i = None
  /\ Box.run [Box.Frame 0.5%float; Box.UI Box.Click; Box.Frame 0.25%float] i
     = Box.run [Box.UI Box.Click] i.
Proof.
  intros i. split; [reflexivity|].
  destruct (frames_without_mesh i eq_refl) as (_ & _ & H).
  exact (H [Box.Frame 0.5%float; Box.UI Box.Click; Box.Frame 0.25%float]).
Defined.

Lemma scale_attribute_of_state (p : Box.BoxProps) (s : Box.State) :
  Box.scale_attribute (Box.render p s)
  = Some (if Box.active s then 1.5 else 1)%float.
Proof. destruct p as [[[[x y] z]|]]; reflexivity. Qed.

Lemma active_without_clicks (t : list Box.Step) (i : Box.Instance) :
  clicks t = 0 ->
  Box.active (Box.state (Box.run t i)) = Box.active (Box.state i).
Proof.
  intros H. rewrite active_run_clicks. unfold clicks in H.
  destruct (filter Box.is_click t); [reflexivity|discriminate].
Qed.

(** The mesh after a run, field by field. *)
Lemma mesh_after_run (t : list Box.Step) (p : Box.BoxProps) (s : Box.State)
  (m : Three.Mesh) :
  let i' := Box.run t {| Box.props := p; Box.state := s;
                         Box.meshRef := Some m |} in
  Box.meshRef i'
  = Some {| Three.position := Three.position m;
            Three.rotation :=
              {| Three.ex := fold_left PrimFloat.add (frame_deltas t)
                               (Three.ex (Three.rotation m));
                 Three.ey := Three.ey (Three.rotation m);
                 Three.ez := Three.ez (Three.rotation m) |};
            Three.scale :=
              if Nat.eqb (clicks t) 0 then Three.scale m
              else let v := (if Box.active (Box.state i') then 1.5 else 1)%float
                   in Three.mkVector3 v v v |}.
Proof.
  revert s m. induction t as [|[e|d] t IH]; intros s m; cbv zeta.
  - destruct m as [pos [x y z] scl]. reflexivity.
  - change (Box.run (Box.UI e :: t) ?i) with (Box.run t (Box.step i (Box.UI e))).
    assert (E : Box.step {| Box.props := p; Box.state := s;
                            Box.meshRef := Some m |} (Box.UI e)
                = {| Box.props := p; Box.state := Box.dispatch p e s;
                     Box.meshRef :=
                       match e with
                       | Box.Click =>
                           Some (Three.set_scale_scalar m
                                   (if Box.active s then 1 else 1.5)%float)
                       | _ => Some m
                       end |}).
    { apply instance_ext; [reflexivity|reflexivity|].
      rewrite step_ui_mesh. now destruct e. }
    rewrite E. clear E.
    destruct e.
    + specialize (IH (Box.dispatch p Box.Click s)
                    (Three.set_scale_scalar m
                       (if Box.active s then 1 else 1.5)%float)).
      cbv zeta in IH. rewrite IH. cbn [frame_deltas Three.set_scale_scalar
        Three.position Three.rotation Three.scale].
      f_equal. f_equal.
      change (clicks (Box.UI Box.Click :: t)) with (S (clicks t)).
      cbn [Nat.eqb].
      destruct (Nat.eqb (clicks t) 0) eqn:Z; [|reflexivity].
      apply Nat.eqb_eq in Z.
      rewrite (active_without_clicks t _ Z). cbn [Box.state].
      rewrite dispatch_click. cbn [Box.active].
      now destruct (Box.active s).
    + specialize (IH (Box.dispatch p Box.PointerOver s) m).
      cbv zeta in IH. rewrite IH. reflexivity.
    + specialize (IH (Box.dispatch p Box.PointerOut s) m).
      cbv zeta in IH. rewrite IH. reflexivity.
  - change (Box.run (Box.Frame d :: t) ?i)
      with (Box.run t (Box.step i (Box.Frame d))).
    cbn [Box.step Box.props Box.state Box.meshRef Box.useFrame_callback].
    specialize (IH s (Three.set_rotation_x m
                        (Three.ex (Three.rotation m) + d)%float)).
    cbv zeta in IH. rewrite IH. reflexivity.
Qed.

(** X6.  With a mesh attached, after any run the x rotation of the mesh is
    the initial angle plus the time steps of the frames of the run, added
    one after the other in the order of the frames; the other two angles
    and the position are those of the initial mesh.  The scale of the mesh
    is the initial one as long as the run has no click; after a run with a
    click it is the displayed scale of the final state (1.5 when [active],
    1 when not) in all three components. *)
Theorem rotation_accumulates (p : Box.BoxProps) (s : Box.State)
  (m : Three.Mesh) (t : list Box.Step) :
  let i' := Box.run t {| Box.props := p; Box.state := s;
                         Box.meshRef := Some m |} in
  option_map Three.rotation (Box.meshRef i')
  = Some {| Three.ex := fold_left PrimFloat.add (frame_deltas t)
                          (Three.ex (Three.rotation m));
            Three.ey := Three.ey (Three.rotation m);
            Three.ez := Three.ez (Three.rotation m) |}
  /\ option_map Three.position (Box.meshRef i') = Some (Three.position m)
  /\ option_map Three.scale (Box.meshRef i')
     = Some (if Nat.eqb (clicks t) 0 then Three.scale m
             else let v := (if Box.active (Box.state i') then 1.5 else 1)%float
                  in Three.mkVector3 v v v).
Proof.
  cbv zeta. pose proof (mesh_after_run t p s m) as H. cbv zeta in H.
  rewrite H. repeat split; reflexivity.
Qed.

(** A click followed by a frame on the left box of the scene: the mesh is
    scaled to 1.5 in all three components and turned by the time step. *)
Example left_box_click_then_frame :
  let i := {| Box.props := {| Box.position := Some (-1.2, 0, 0)%float |};
              Box.state := Box.initial;
              Box.meshRef :=
                Some {| Three.position := Three.mkVector3 (-1.2) 0 0;
                        Three.rotation := Three.mkEuler 0 0 0;
                        Three.scale := Three.mkVector3 1 1 1 |} |} in
  Box.meshRef (Box.run [Box.UI Box.Click; Box.Frame 0.5%float] i)
  = Some {| Three.position := Three.mkVector3 (-1.2) 0 0;
            Three.rotation := Three.mkEuler 0.5 0 0;
            Three.scale := Three.mkVector3 1.5 1.5 1.5 |}.
Proof. vm_compute. reflexivity. Qed.

(** X11.  The mesh keeps showing what is displayed: if the scale of the
    mesh is the displayed scale (in all three components) before a run, it
    is the displayed scale after the run, whatever clicks, pointer events
    and frames the run consists of. *)
Theorem mesh_scale_follows_display (t : list Box.Step) (i : Box.Instance) :
  scale_in_step i -> scale_in_step (Box.run t i).
Proof.
  destruct i as [p s [m|]]; unfold scale_in_step.
  - cbn [Box.meshRef Box.props Box.state].
    pose proof (mesh_after_run t p s m) as H. cbv zeta in H.
    rewrite H, props_run, !scale_attribute_of_state.
    cbn [Box.props Three.scale]. intros S0.
    destruct (Nat.eqb (clicks t) 0) eqn:Z; [|reflexivity].
    apply Nat.eqb_eq in Z.
    rewrite (active_without_clicks t _ Z). exact S0.
  - intros _.
    assert (N : Box.meshRef (Box.run t {| Box.props := p; Box.state := s;
                                          Box.meshRef := None |}) = None).
    { generalize s. induction t as [|[e|d] t IH]; intros s0; [reflexivity| |].
      - change (Box.run (Box.UI e :: t) ?j)
          with (Box.run t (Box.step j (Box.UI e))).
        assert (E : Box.step {| Box.props := p; Box.state := s0;
                                Box.meshRef := None |} (Box.UI e)
                    = {| Box.props := p; Box.state := Box.dispatch p e s0;
                         Box.meshRef := None |}).
        { apply instance_ext; [reflexivity|reflexivity|].
          rewrite step_ui_mesh. now destruct e. }
        rewrite E. apply IH.
      - apply IH. }
    now rewrite N.
Qed.

Lemma mesh_scale_follows_display_witness :
  let i := {| Box.props := {| Box.position := Some (1.2, 0, 0)%float |};
              Box.state := Box.initial;
              Box.meshRef :=
                Some {| Three.position := Three.mkVector3 1.2 0 0;
                        Three.rotation := Three.mkEuler 0 0 0;
                        Three.scale := Three.mkVector3 1 1 1 |} |} in
  let t := [Box.UI Box.PointerOver; Box.UI Box.Click; Box.Frame 0.5%float;
            Box.UI Box.Click; Box.UI Box.Click] in
  scale_in_step i /\ scale_in_step (Box.run t i).
Proof.
  intros i t.
  assert (S0 : scale_in_step i) by reflexivity.
  split; [exact S0|].
  exact (mesh_scale_follows_display t i S0).
Defined.

(** X7.  The mesh of a box has a [position] attribute exactly when the box
    was given one, with the value given and whatever the flags are; so the
    mesh rendered for a [<Box>] element carries the position written on that
    element, and none when the element has none. *)
Theorem position_passes_through :
  (forall p s, prop "position" (props_of (Box.render p s)) = position_attribute p)
  /\ (forall n p s,
        Scene.box_props n = Some p ->
        prop "position" (props_of (Box.render p s))
        = prop "position" (props_of n)).
Proof.
  assert (A : forall p s,
             prop "position" (props_of (Box.render p s)) = position_attribute p).
  { intros [[[[x y] z]|]] s; reflexivity. }
  split; [exact A|].
  intros n p s H. rewrite A. unfold Scene.box_props in H.
  destruct (has_tag "Box" n); [|discriminate].
  destruct (prop "position" (props_of n)) as [v|].
  - destruct v as [ | | |xs| | | | ]; try discriminate.
    destruct xs as [|x [|y [|z [|w xs]]]]; try discriminate.
    injection H as <-. reflexivity.
  - injection H as <-. reflexivity.
Qed.

Lemma position_passes_through_witness :
  let n := NElem "Box" [("position", PVec [(-1.2)%float; 0%float; 0%float])] [] in
  let p := {| Box.position := Some (-1.2, 0, 0)%float |} in
  Scene.box_props n = Some p
  /\ prop "position" (props_of (Box.render p Box.initial))
     = prop "position" (props_of n).
Proof.
  intros n p. split; [reflexivity|].
  apply (proj2 position_passes_through n p Box.initial). reflexivity.
Defined.

Lemma scale_values_differ : PNum 1.5%float <> PNum 1%float.
Proof.
  intros E.
  pose proof (f_equal (fun v => match v with
                                | PNum x => PrimFloat.eqb x 1
                                | _ => false
                                end) E) as F.
  vm_compute in F. discriminate.
Qed.

(** X8.  What is displayed tells the state: two states of a box that show
    the same scale and the same color are the same state. *)
Theorem display_determines_state (p : Box.BoxProps) (s s' : Box.State) :
  Box.displayed_scale p s = Box.displayed_scale p s' ->
  Box.displayed_color p s = Box.displayed_color p s' ->
  s = s'.
Proof.
  rewrite !scale_of_state, !color_of_state.
  destruct s as [h a], s' as [h' a']; cbn. intros Hs Hc.
  assert (a = a') as ->.
  { destruct a, a'; try reflexivity; exfalso;
      apply scale_values_differ; congruence. }
  assert (h = h') as ->.
  { destruct h, h'; try reflexivity; discriminate. }
  reflexivity.
Qed.

Lemma display_determines_state_witness :
  let p := {| Box.position := None |} in
  let s := Box.dispatch p Box.Click (Box.dispatch p Box.Click Box.initial) in
  Box.displayed_scale p s = Box.displayed_scale p Box.initial
  /\ Box.displayed_color p s = Box.displayed_color p Box.initial
  /\ s = Box.initial.
Proof.
  intros p s. split; [reflexivity|]. split; [reflexivity|].
  apply (display_determines_state p s Box.initial); reflexivity.
Defined.

(** X9.  Every render attaches a handler for each of the three events, so
    no event is dropped.  The two pointer handlers are the same in every
    render, so one kept from an older render acts like the current one; the
    click handlers of two renders are the same only when the renders had
    the same [active]. *)
Theorem handlers_of_a_render (p : Box.BoxProps) (s s' : Box.State) :
  (forall e, exists h,
      Box.handler p s e = Some h /\ Box.dispatch p e s = Box.call h s)
  /\ Box.handler p s Box.PointerOver = Box.handler p s' Box.PointerOver
  /\ Box.handler p s Box.PointerOut = Box.handler p s' Box.PointerOut
  /\ (Box.handler p s Box.Click = Box.handler p s' Box.Click
      <-> Box.active s = Box.active s').
Proof.
  destruct p as [[[[x y] z]|]].
  - split; [|split; [reflexivity|split; [reflexivity|]]].
    + intros [| |]; eexists; split; reflexivity.
    + cbv [Box.handler]; cbn. split; intros H.
      * injection H as H. destruct (Box.active s), (Box.active s');
          cbn in H; congruence.
      * now rewrite H.
  - split; [|split; [reflexivity|split; [reflexivity|]]].
    + intros [| |]; eexists; split; reflexivity.
    + cbv [Box.handler]; cbn. split; intros H.
      * injection H as H. destruct (Box.active s), (Box.active s');
          cbn in H; congruence.
      * now rewrite H.
Qed.

(** * Further properties of the wrapper *)

(** X10.  The wrapper is mounted after a sequence of events exactly when it
    was mounted before or the effect has run at least once in between.  So
    a new wrapper renders its fallback for as long as the effect has not
    run, however often it renders again (as on the server, where effects do
    not run), and its children from the first run of the effect on; running
    the effect again changes nothing. *)
Theorem mounted_iff_effect_ran (es : list ClientOnly.Event) (m : bool)
  (p : ClientOnly.ClientOnlyProps) :
  ClientOnly.run es m = m || existsb is_effect es
  /\ ClientOnly.render p (ClientOnly.run es ClientOnly.initial)
     = (if existsb is_effect es
        then NFragment [ClientOnly.children p]
        else ClientOnly.fallback_or_default p)
  /\ ClientOnly.run (ClientOnly.Effect :: ClientOnly.Effect :: es) m
     = ClientOnly.run (ClientOnly.Effect :: es) m.
Proof.
  assert (R : forall es m, ClientOnly.run es m = m || existsb is_effect es).
  { clear. induction es as [|e es IH]; intros m; cbn.
    - now rewrite orb_false_r.
    - unfold ClientOnly.run in IH. rewrite IH.
      destruct e; cbn; [now rewrite orb_true_r|reflexivity]. }
  split; [apply R|]. split; [|reflexivity].
  rewrite R. cbn. now destruct (existsb is_effect es).
Qed.
